(** * nanogui/shader.h: type tags, the uniform facade and the draw protocol

    A shallow embedding of [include/nanogui/shader.h].  The header holds the
    bodies of [get_type] and [Shader::set_uniform]; [type_size],
    [Shader::set_buffer], [Shader::begin], [Shader::end] and
    [Shader::draw_array] are only declared there, and are modelled from the
    specification of the component. *)

From stdpp Require Import gmap strings list fin_maps numbers.

Set Warnings "-register-all".
Open Scope N_scope.

(** ** Type tags *)

(** [enum class VariableType]. *)
Inductive VariableType :=
  | Invalid | Int8 | UInt8 | Int16 | UInt16 | Int32 | UInt32 | Int64 | UInt64
  | Float16 | Float32 | Float64 | Bool.

#[global] Instance VariableType_eq_dec : EqDecision VariableType.
Proof. solve_decision. Defined.

(** What [get_type<T>] asks of its type argument: the answers of
    [std::is_same_v<T, bool>], [is_integral_v<T>], [std::is_signed_v<T>],
    [std::is_floating_point_v<T>] and [sizeof(T)]. *)
Record TypeTraits := {
  is_bool : bool;
  is_integral : bool;
  is_signed : bool;
  is_floating_point : bool;
  sizeof : N
}.

(** [template <typename T> constexpr VariableType get_type()].  A chain of
    [if constexpr] whose unmatched widths fall through to the final
    [return VariableType::Invalid]. *)
Definition get_type (T : TypeTraits) : VariableType :=
  if is_bool T then Bool
  else if is_integral T then
    if sizeof T =? 1 then (if is_signed T then Int8 else UInt8)
    else if sizeof T =? 2 then (if is_signed T then Int16 else UInt16)
    else if sizeof T =? 4 then (if is_signed T then Int32 else UInt32)
    else if sizeof T =? 8 then (if is_signed T then Int64 else UInt64)
    else Invalid
  else if is_floating_point T then
    if sizeof T =? 2 then Float16
    else if sizeof T =? 4 then Float32
    else if sizeof T =? 8 then Float64
    else Invalid
  else Invalid.

(** Modelled from the spec: [type_size] is declared [extern] in the header
    and its table is not part of it.  One entry per tag, the width the tag
    names; [Invalid] maps to 0 and a [Bool] occupies one byte. *)
Definition type_size (type : VariableType) : N :=
  match type with
  | Invalid => 0
  | Int8 | UInt8 | Bool => 1
  | Int16 | UInt16 | Float16 => 2
  | Int32 | UInt32 | Float32 => 4
  | Int64 | UInt64 | Float64 => 8
  end.

(** The families the tag names spell out: signed and unsigned integers,
    floats, the boolean and the invalid tag. *)
Inductive TagKind := KInvalid | KInteger (signed : bool) | KFloat | KBool.

Definition tag_kind (type : VariableType) : TagKind :=
  match type with
  | Invalid => KInvalid
  | Int8 | Int16 | Int32 | Int64 => KInteger true
  | UInt8 | UInt16 | UInt32 | UInt64 => KInteger false
  | Float16 | Float32 | Float64 => KFloat
  | Bool => KBool
  end.

(** The facts about the native types of the supported targets that the
    header relies on: [bool] is an unsigned integral type of one byte, and no
    type is both integral and floating. *)
Definition native (T : TypeTraits) : Prop :=
  (is_bool T = true → is_integral T = true ∧ is_signed T = false ∧ sizeof T = 1)
  ∧ (is_floating_point T = true → is_integral T = false).

(** ** Values handed to [set_uniform] *)

(** A [const void *]: a local that was never assigned holds an indeterminate
    value. *)
Inductive Pointer := Indeterminate | Null | Addr (a : N).

#[global] Instance Pointer_eq_dec : EqDecision Pointer.
Proof. solve_decision. Defined.

(** The contents of an array-like value: an element, or an array of nested
    values. *)
Inductive Nested := Elem | Arr (items : list Nested).

(** [value.size()]; an element has no such member. *)
Definition arr_size (v : Nested) : option N :=
  match v with
  | Arr items => Some (N.of_nat (length items))
  | Elem => None
  end.

(** [value[i]]; there is nothing to read past the end. *)
Definition arr_at (v : Nested) (i : nat) : option Nested :=
  match v with
  | Arr items => items !! i
  | Elem => None
  end.

(** The template argument [Array] of [set_uniform], as the function sees it:
    the three compile-time tests, the traits of [Array] itself and the
    members [Array::Size], [Array::Value], [Array::Depth], [Array::Scalar]. *)
Record ArrayType := {
  traits : TypeTraits;
  is_scalar : bool;
  IsBuiltinArray : bool;
  IsEnokiArray : bool;
  Size : N;
  Value : TypeTraits;
  Depth : N;
  Scalar : TypeTraits
}.

(** The argument [value]: its address [&value], the pointer [value.data()]
    to its element storage, and its contents. *)
Record ArrayValue := {
  address : N;
  storage : N;
  contents : Nested
}.

(** [(size_t) -1] *)
Definition SIZE_MAX : N := 2 ^ 64 - 1.

(** The locals of [set_uniform]. *)
Record Locals := {
  shape : list N;
  ndim : N;
  data : Pointer;
  vtype : option VariableType
}.

Definition set_shape (i : nat) (n : N) (l : Locals) : Locals :=
  {| shape := <[i:=n]> (shape l); ndim := ndim l; data := data l; vtype := vtype l |}.
Definition set_ndim (n : N) (l : Locals) : Locals :=
  {| shape := shape l; ndim := n; data := data l; vtype := vtype l |}.
Definition set_data (p : Pointer) (l : Locals) : Locals :=
  {| shape := shape l; ndim := ndim l; data := p; vtype := vtype l |}.
Definition set_vtype (t : VariableType) (l : Locals) : Locals :=
  {| shape := shape l; ndim := ndim l; data := data l; vtype := Some t |}.

(** The declarations that open [set_uniform]:
    [shape = { 1, 1, 1 }], [ndim = (size_t) -1], [data] and [vtype] left
    unassigned. *)
Definition locals0 : Locals :=
  {| shape := [1; 1; 1]; ndim := SIZE_MAX; data := Indeterminate; vtype := None |}.

(** The [IsEnokiArray] branch up to [data = value.data()]: the chain on
    [Array::Depth]. [None] when an element that is read does not exist. *)
Definition enoki_shape (T : ArrayType) (value : Nested) (l : Locals) : option Locals :=
  if Depth T =? 1 then
    s0 ← arr_size value;
    Some (set_ndim 1 (set_shape 0 s0 l))
  else if Depth T =? 2 then
    s0 ← arr_size value;
    v0 ← arr_at value 0;
    s1 ← arr_size v0;
    Some (set_ndim 2 (set_shape 1 s1 (set_shape 0 s0 l)))
  else if Depth T =? 3 then
    s0 ← arr_size value;
    v0 ← arr_at value 0;
    s1 ← arr_size v0;
    v00 ← arr_at v0 0;
    s2 ← arr_size v00;
    Some (set_ndim 3 (set_shape 2 s2 (set_shape 1 s1 (set_shape 0 s0 l))))
  else Some l.

(** The body of [set_uniform] down to the test of [ndim]: the locals as they
    stand after the [if constexpr] chain. *)
Definition set_uniform_locals (T : ArrayType) (value : ArrayValue) : option Locals :=
  if is_scalar T then
    Some (set_vtype (get_type (traits T))
           (set_ndim 0 (set_data (Addr (address value)) locals0)))
  else if IsBuiltinArray T then
    Some (set_vtype (get_type (Value T))
           (set_shape 0 (Size T) (set_ndim 1 locals0)))
  else if IsEnokiArray T then
    l ← enoki_shape T (contents value) locals0;
    Some (set_vtype (get_type (Scalar T)) (set_data (Addr (storage value)) l))
  else Some locals0.

(** ** The shader and its parameter registry *)

(** [enum class PrimitiveType] *)
Inductive PrimitiveType := Point | Line | LineStrip | Triangle | TriangleStrip.

#[global] Instance PrimitiveType_eq_dec : EqDecision PrimitiveType.
Proof. solve_decision. Defined.

(** [enum class BlendMode] *)
Module BlendMode.
Inductive t := None | AlphaBlend.
End BlendMode.

(** [enum BufferType] *)
Inductive BufferType :=
  | Unknown | VertexBuffer | VertexTexture | VertexSampler | FragmentBuffer
  | FragmentTexture | FragmentSampler | UniformBuffer | IndexBuffer.

(** [struct Buffer].  The field [buffer] is the shader's own copy of the
    uploaded bytes. *)
Module Buffer.
Record t := {
  buffer : list Byte.byte;
  type : BufferType;
  dtype : VariableType;
  index : Z;
  ndim : N;
  shape : list N;
  size : N;
  dirty : bool
}.

(** [struct Buffer]'s default member initialisers. *)
Definition default : t :=
  {| buffer := []; type := Unknown; dtype := Invalid; index := 0%Z; ndim := 0;
     shape := [0; 0; 0]; size := 0; dirty := false |}.

Definition clean (b : t) : t :=
  {| buffer := buffer b; type := type b; dtype := dtype b; index := index b;
     ndim := ndim b; shape := shape b; size := size b; dirty := false |}.
End Buffer.

(** One dispatched draw, as [draw_array] received it. *)
Record DrawCall := {
  draw_primitive : PrimitiveType;
  draw_offset : N;
  draw_count : N;
  draw_indexed : bool
}.

(** The members of [class Shader] ([m_render_pass] is an opaque handle), and,
    modelled from the spec since the header holds no member for them: the
    interface the compiled program exposes ([interface], name to binding role
    and slot), the state of the begin/end bracket ([active]), the payloads
    resident on the device ([resident]) and the draws issued so far
    ([draws]). *)
Record Shader := {
  m_render_pass : N;
  m_name : string;
  m_buffers : gmap string Buffer.t;
  m_blend_mode : BlendMode.t;
  interface : gmap string (BufferType * Z);
  active : bool;
  resident : gmap string (list Byte.byte);
  draws : list DrawCall
}.

Definition with_buffers (m : gmap string Buffer.t) (s : Shader) : Shader :=
  {| m_render_pass := m_render_pass s; m_name := m_name s; m_buffers := m;
     m_blend_mode := m_blend_mode s; interface := interface s;
     active := active s; resident := resident s; draws := draws s |}.
Definition with_active (a : bool) (s : Shader) : Shader :=
  {| m_render_pass := m_render_pass s; m_name := m_name s; m_buffers := m_buffers s;
     m_blend_mode := m_blend_mode s; interface := interface s;
     active := a; resident := resident s; draws := draws s |}.
Definition with_resident (r : gmap string (list Byte.byte)) (s : Shader) : Shader :=
  {| m_render_pass := m_render_pass s; m_name := m_name s; m_buffers := m_buffers s;
     m_blend_mode := m_blend_mode s; interface := interface s;
     active := active s; resident := r; draws := draws s |}.
Definition with_draws (d : list DrawCall) (s : Shader) : Shader :=
  {| m_render_pass := m_render_pass s; m_name := m_name s; m_buffers := m_buffers s;
     m_blend_mode := m_blend_mode s; interface := interface s;
     active := active s; resident := resident s; draws := d |}.

(** What a call can end in: [std::runtime_error] with its message (the one
    exception the header throws), and the usage errors of the spec's
    taxonomy. *)
Inductive Error :=
  | runtime_error (what : string)
  | UnknownParameter
  | MissingBinding
  | TopologyMismatch
  | StateViolation.

#[global] Instance Error_eq_dec : EqDecision Error.
Proof. solve_decision. Defined.

(** The outcome of a member function: it returns, leaving the shader in a
    new state; it throws, leaving the shader as it stands at the [throw]; or
    it has no defined behaviour (a broken precondition, a read past the end,
    an indeterminate argument). *)
Inductive Outcome :=
  | Done (s : Shader)
  | Raise (e : Error) (s : Shader)
  | Undefined.

(** The bytes readable from an address. *)
Definition Memory : Type := N → list Byte.byte.

(** [product(shape[0..ndim))] *)
Definition product (l : list N) : N := foldr N.mul 1 l.

Definition extent (ndim : N) (shape : list N) : N :=
  product (take (N.to_nat ndim) shape).

(** Modelled from the spec: the constructor's body is not in the header.
    [compile] stands for the backend compiling and linking the two sources
    and reading back the program's parameters; a failure yields no shader.
    A new shader has an empty registry and is inactive. *)
Definition Shader_new (compile : string → string → option (gmap string (BufferType * Z)))
    (render_pass : N) (name vertex_shader fragment_shader : string)
    (blend_mode : BlendMode.t) : option Shader :=
  program ← compile vertex_shader fragment_shader;
  Some {| m_render_pass := render_pass; m_name := name; m_buffers := ∅;
          m_blend_mode := blend_mode; interface := program; active := false;
          resident := ∅; draws := [] |}.

(** Modelled from the spec: the preconditions of [set_buffer]: [ndim] is at
    most 3, [dtype] is not [Invalid], and [data] is non-null and readable for
    [type_size(dtype) * product(shape[0..ndim))] bytes.  The shape is a
    [std::array<size_t, 3>]. *)
Definition set_buffer_pre (mem : Memory) (dtype : VariableType) (ndim : N)
    (shape : list N) (data : Pointer) : bool :=
  (ndim <=? 3) && bool_decide (dtype ≠ Invalid) && (length shape =? 3)%nat &&
  match data with
  | Addr a => type_size dtype * extent ndim shape <=? N.of_nat (length (mem a))
  | _ => false
  end.

Definition read (mem : Memory) (data : Pointer) (n : N) : list Byte.byte :=
  match data with
  | Addr a => take (N.to_nat n) (mem a)
  | _ => []
  end.

(** Modelled from the spec: the body of [Shader::set_buffer] is not in the
    header.  It registers or replaces the named parameter: the binding role
    and slot come from the program's interface (a name no stage names is an
    unknown-parameter error that leaves the registry as it is), the payload
    is copied, its byte size recorded, and the entry marked dirty; nothing is
    uploaded before the next [begin]. *)
Definition set_buffer (mem : Memory) (name : string) (dtype : VariableType)
    (ndim : N) (shape : list N) (data : Pointer) (s : Shader) : Outcome :=
  if negb (set_buffer_pre mem dtype ndim shape data) then Undefined
  else match interface s !! name with
  | None => Raise UnknownParameter s
  | Some (role, slot) =>
      let size := type_size dtype * extent ndim shape in
      let buf := {| Buffer.buffer := read mem data size; Buffer.type := role;
                    Buffer.dtype := dtype; Buffer.index := slot;
                    Buffer.ndim := ndim; Buffer.shape := shape;
                    Buffer.size := size; Buffer.dirty := true |} in
      Done (with_buffers (<[name:=buf]> (m_buffers s)) s)
  end.

Definition invalid_dimension : Error :=
  runtime_error "Shader::set_uniform(): invalid input array dimension!".

Section SetUniform.
(** [set_uniform] is written against the declaration of [set_buffer]. *)
Variable set_buffer : string → VariableType → N → list N → Pointer → Shader → Outcome.

(** [template <typename Array> void set_uniform(name, value)] *)
Definition set_uniform (name : string) (T : ArrayType) (value : ArrayValue)
    (s : Shader) : Outcome :=
  match set_uniform_locals T value with
  | None => Undefined
  | Some l =>
      if ndim l =? SIZE_MAX then Raise invalid_dimension s
      else match vtype l with
           | Some t => set_buffer name t (ndim l) (shape l) (data l) s
           | None => Undefined
           end
  end.
End SetUniform.

(** ** The draw protocol *)

(** Modelled from the spec: the body of [Shader::begin] is not in the header.
    It fails while the shader is already active and when a parameter of the
    program was never bound; otherwise it uploads the payload of every dirty
    entry, clears the dirty flags and activates the pipeline. *)
Definition begin (s : Shader) : Outcome :=
  if active s then Raise StateViolation s
  else if decide (dom (interface s) ⊆ dom (m_buffers s)) then
    let uploads := Buffer.buffer <$> filter (λ kv, Buffer.dirty kv.2 = true) (m_buffers s) in
    Done (with_active true
           (with_resident (uploads ∪ resident s)
             (with_buffers (Buffer.clean <$> m_buffers s) s)))
  else Raise MissingBinding s.

(** Modelled from the spec: the body of [Shader::end] is not in the header.
    It deactivates the pipeline; it is a usage error while inactive. *)
Definition end_ (s : Shader) : Outcome :=
  if active s then Done (with_active false s) else Raise StateViolation s.

(** Modelled from the spec: for [Line] and [Triangle], [count] is a multiple
    of 2 and 3; the strips and [Point] take any count. *)
Definition count_ok (primitive_type : PrimitiveType) (count : N) : bool :=
  match primitive_type with
  | Line => count mod 2 =? 0
  | Triangle => count mod 3 =? 0
  | Point | LineStrip | TriangleStrip => true
  end.

(** Modelled from the spec: a buffer named [indices] of unsigned 32-bit
    integers is bound. *)
Definition has_indices (s : Shader) : bool :=
  match m_buffers s !! "indices"%string with
  | Some b => bool_decide (Buffer.dtype b = UInt32)
  | None => false
  end.

(** Modelled from the spec: the body of [Shader::draw_array] is not in the
    header.  It is valid only between [begin] and [end]; a count that does
    not fit the topology and an indexed draw without index buffer are usage
    errors; otherwise one draw is issued. *)
Definition draw_array (primitive_type : PrimitiveType) (offset count : N)
    (indexed : bool) (s : Shader) : Outcome :=
  if negb (active s) then Raise StateViolation s
  else if negb (count_ok primitive_type count) then Raise TopologyMismatch s
  else if indexed && negb (has_indices s) then Raise MissingBinding s
  else Done (with_draws (draws s ++ [ {| draw_primitive := primitive_type;
                                         draw_offset := offset;
                                         draw_count := count;
                                         draw_indexed := indexed |} ]) s).

(** ** Notions the statements below are written in *)

(** The widths [get_type] has an integer tag and a float tag for. *)
Definition int_width (n : N) : Prop := n = 1 ∨ n = 2 ∨ n = 4 ∨ n = 8.
Definition float_width (n : N) : Prop := n = 2 ∨ n = 4 ∨ n = 8.

(** The registry entries held under a name. *)
Definition entries (name : string) (s : Shader) : list (string * Buffer.t) :=
  filter (λ kv, kv.1 = name) (map_to_list (m_buffers s)).

(** [set_uniform name value] hands exactly these arguments to [set_buffer],
    whatever [set_buffer] does with them. *)
Definition forwards (name : string) (T : ArrayType) (value : ArrayValue) (s : Shader)
    (dtype : VariableType) (ndim : N) (shape : list N) (data : Pointer) : Prop :=
  ∀ sb, set_uniform sb name T value s = sb name dtype ndim shape data s.

(** A value [set_uniform] has a branch for: a scalar, a fixed-size array, or
    a nested array of depth 1 to 3. *)
Definition classifiable (T : ArrayType) : Prop :=
  is_scalar T = true ∨ IsBuiltinArray T = true
  ∨ (IsEnokiArray T = true ∧ 1 ≤ Depth T ≤ 3).

(** A nested array is rectangular with extents [dims], outermost first. *)
Fixpoint rect (dims : list N) (v : Nested) : bool :=
  match dims, v with
  | [], Elem => true
  | n :: dims', Arr items =>
      (N.of_nat (length items) =? n) && forallb (rect dims') items
  | _, _ => false
  end.

(** A shape of three extents: [dims], then ones. *)
Definition pad (dims : list N) : list N :=
  dims ++ replicate (3 - length dims) 1.

(** Some native types and values. *)
Definition c_bool : TypeTraits :=
  {| is_bool := true; is_integral := true; is_signed := false;
     is_floating_point := false; sizeof := 1 |}.
Definition c_float : TypeTraits :=
  {| is_bool := false; is_integral := false; is_signed := true;
     is_floating_point := true; sizeof := 4 |}.
Definition c_uint32 : TypeTraits :=
  {| is_bool := false; is_integral := true; is_signed := false;
     is_floating_point := false; sizeof := 4 |}.
(** A class type: none of the arithmetic traits holds. *)
Definition c_class (bytes : N) : TypeTraits :=
  {| is_bool := false; is_integral := false; is_signed := false;
     is_floating_point := false; sizeof := bytes |}.

(** [float] as the template argument. *)
Definition float_scalar : ArrayType :=
  {| traits := c_float; is_scalar := true; IsBuiltinArray := false;
     IsEnokiArray := false; Size := 0; Value := c_class 0; Depth := 0;
     Scalar := c_class 0 |}.
(** A fixed-size vector of three floats. *)
Definition Vector3f : ArrayType :=
  {| traits := c_class 12; is_scalar := false; IsBuiltinArray := true;
     IsEnokiArray := false; Size := 3; Value := c_float; Depth := 1;
     Scalar := c_float |}.
(** A 4x4 float matrix as an array of four columns of four floats. *)
Definition Matrix4f : ArrayType :=
  {| traits := c_class 64; is_scalar := false; IsBuiltinArray := false;
     IsEnokiArray := true; Size := 4; Value := c_class 16; Depth := 2;
     Scalar := c_float |}.

(** An array nested four deep. *)
Definition Tensor4f : ArrayType :=
  {| traits := c_class 64; is_scalar := false; IsBuiltinArray := false;
     IsEnokiArray := true; Size := 2; Value := c_class 32; Depth := 4;
     Scalar := c_float |}.

Definition scalar1 : ArrayValue :=
  {| address := 512; storage := 512; contents := Elem |}.
Definition tensor4 : ArrayValue :=
  {| address := 1024; storage := 1024;
     contents := Arr (replicate 2 (Arr (replicate 2 (Arr (replicate 2
                   (Arr (replicate 2 Elem))))))) |}.
Definition vector3 : ArrayValue :=
  {| address := 4096; storage := 4096; contents := Arr (replicate 3 Elem) |}.
Definition matrix4 : ArrayValue :=
  {| address := 8192; storage := 8192;
     contents := Arr (replicate 4 (Arr (replicate 4 Elem))) |}.

(** A memory whose every address is readable for 64 bytes. *)
Definition mem64 : Memory := λ _, replicate 64 Byte.x00.

(** A shader whose program names a uniform [mvp], a vertex attribute
    [position] and the index buffer. *)
Definition demo_program : gmap string (BufferType * Z) :=
  {[ "mvp"%string := (UniformBuffer, 0%Z);
     "position"%string := (VertexBuffer, 0%Z);
     "indices"%string := (IndexBuffer, (-1)%Z) ]}.
Definition demo : Shader :=
  {| m_render_pass := 1; m_name := "demo"; m_buffers := ∅;
     m_blend_mode := BlendMode.None; interface := demo_program;
     active := false; resident := ∅; draws := [] |}.

(** A stand-in for [set_buffer] that keeps the tag, the dimension and the
    shape it is called with. *)
Definition recorder (name : string) (dtype : VariableType) (n : N) (sh : list N)
    (p : Pointer) (s : Shader) : Outcome :=
  Done (with_buffers {[ name := {| Buffer.buffer := []; Buffer.type := Unknown;
                                   Buffer.dtype := dtype; Buffer.index := 0%Z;
                                   Buffer.ndim := n; Buffer.shape := sh;
                                   Buffer.size := 0; Buffer.dirty := false |} ]} s).

(** The two states of the begin/end bracket and the operations on it, as
    the spec's state machine has them: [begin] leads from [Inactive] to
    [Active], [end] back, [draw_array] stays in [Active]; no other move is
    allowed. *)
Inductive State := Inactive | Active.

Inductive Op :=
  | OpBegin
  | OpEnd
  | OpDrawArray (primitive_type : PrimitiveType) (offset count : N) (indexed : bool).

Definition transition (st : State) (op : Op) : option State :=
  match st, op with
  | Inactive, OpBegin => Some Active
  | Active, OpEnd => Some Inactive
  | Active, OpDrawArray _ _ _ _ => Some Active
  | _, _ => None
  end.

Definition state_of (s : Shader) : State := if active s then Active else Inactive.

Definition run (op : Op) (s : Shader) : Outcome :=
  match op with
  | OpBegin => begin s
  | OpEnd => end_ s
  | OpDrawArray primitive_type offset count indexed =>
      draw_array primitive_type offset count indexed s
  end.

(** The shader a call leaves behind. *)
Definition after (o : Outcome) : Shader :=
  match o with
  | Done s => s
  | Raise _ s => s
  | Undefined => demo
  end.

(** [demo] with its three parameters bound: a 4x4 matrix, four positions of
    three floats, six indices; and then begun. *)
Definition demo_uniform : Shader :=
  after (set_buffer mem64 "mvp" Float32 2 [4; 4; 1] (Addr 8192) demo).
Definition demo_vertices : Shader :=
  after (set_buffer mem64 "position" Float32 2 [4; 3; 1] (Addr 4096) demo_uniform).
Definition demo_indexed : Shader :=
  after (set_buffer mem64 "indices" UInt32 1 [6; 1; 1] (Addr 0) demo_vertices).
Definition demo_active : Shader := after (begin demo_indexed).

(** An enumeration as the template argument: a scalar type that is neither
    integral nor floating. *)
Definition enum_scalar : ArrayType :=
  {| traits := c_class 4; is_scalar := true; IsBuiltinArray := false;
     IsEnokiArray := false; Size := 0; Value := c_class 0; Depth := 0;
     Scalar := c_class 0 |}.

(** A fixed-size vector type that also passes the nested-array test. *)
Definition Vector3f_nested : ArrayType :=
  {| traits := c_class 12; is_scalar := false; IsBuiltinArray := true;
     IsEnokiArray := true; Size := 3; Value := c_float; Depth := 1;
     Scalar := c_float |}.

(** Two rows of unequal length, and an array without rows. *)
Definition ragged2 : ArrayValue :=
  {| address := 2048; storage := 2048;
     contents := Arr [Arr [Elem; Elem; Elem]; Arr [Elem]] |}.
Definition empty2 : ArrayValue :=
  {| address := 2048; storage := 2048; contents := Arr [] |}.

(** A callee that refuses every call. *)
Definition refuse (name : string) (dtype : VariableType) (n : N) (sh : list N)
    (p : Pointer) (s : Shader) : Outcome := Raise UnknownParameter s.



(** ** Type tags *)

Example get_type_c_bool : get_type c_bool = Bool.
Proof. reflexivity. Qed.

Example get_type_c_uint32 : get_type c_uint32 = UInt32 ∧ type_size UInt32 = sizeof c_uint32.
Proof. split; reflexivity. Qed.

(** A class type of 12 bytes, and an integer of 16, have no tag. *)
Example get_type_unrecognised :
  get_type (c_class 12) = Invalid
  ∧ get_type {| is_bool := false; is_integral := true; is_signed := true;
                is_floating_point := false; sizeof := 16 |} = Invalid.
Proof. split; reflexivity. Qed.

Lemma get_type_bool (T : TypeTraits) : is_bool T = true → get_type T = Bool.
Proof. intros H. unfold get_type. by rewrite H. Qed.

Ltac widths :=
  repeat match goal with
         | |- context [?a =? ?b] => destruct (N.eqb_spec a b)
         | H : context [?a =? ?b] |- _ => destruct (N.eqb_spec a b)
         end.

Lemma get_type_integral (T : TypeTraits) :
  is_bool T = false → is_integral T = true → int_width (sizeof T) →
  tag_kind (get_type T) = KInteger (is_signed T)
  ∧ type_size (get_type T) = sizeof T.
Proof.
  intros Hb Hi Hw. unfold get_type. rewrite Hb, Hi.
  destruct Hw as [-> | [-> | [-> | ->]]]; by destruct (is_signed T).
Qed.

Lemma get_type_floating (T : TypeTraits) :
  is_bool T = false → is_integral T = false → is_floating_point T = true →
  float_width (sizeof T) →
  tag_kind (get_type T) = KFloat ∧ type_size (get_type T) = sizeof T.
Proof.
  intros Hb Hi Hf Hw. unfold get_type. rewrite Hb, Hi, Hf.
  by destruct Hw as [-> | [-> | ->]].
Qed.

(** A tag is determined by its family and its width. *)
Lemma tag_unique (t u : VariableType) :
  tag_kind t = tag_kind u → type_size t = type_size u → t = u.
Proof. destruct t, u; simpl; intros Hk Hs; congruence || done. Qed.

Lemma native_floating_not_bool (T : TypeTraits) :
  native T → is_floating_point T = true → is_bool T = false ∧ is_integral T = false.
Proof.
  intros [Hb Hf] H. specialize (Hf H). split; [|done].
  destruct (is_bool T) eqn:E; [|done]. destruct (Hb eq_refl) as [Hi _]. congruence.
Qed.

(** C1: for every native type [T], [get_type] returns [Bool] when [T] is
    [bool]; for an integral [T] of 1, 2, 4 or 8 bytes the one integer tag of
    [T]'s signedness and width; for a floating [T] of 2, 4 or 8 bytes the one
    float tag of [T]'s width; and [Invalid] for every other type.  Whenever
    the tag is not [Invalid], [type_size] of the tag is [sizeof(T)]. *)
Theorem get_type_classifies (T : TypeTraits) (HT : native T) :
  (is_bool T = true → get_type T = Bool)
  ∧ (is_bool T = false → is_integral T = true → int_width (sizeof T) →
       tag_kind (get_type T) = KInteger (is_signed T)
       ∧ type_size (get_type T) = sizeof T
       ∧ ∀ t, tag_kind t = KInteger (is_signed T) → type_size t = sizeof T →
              t = get_type T)
  ∧ (is_floating_point T = true → float_width (sizeof T) →
       tag_kind (get_type T) = KFloat
       ∧ type_size (get_type T) = sizeof T
       ∧ ∀ t, tag_kind t = KFloat → type_size t = sizeof T → t = get_type T)
  ∧ (is_bool T = false →
     ¬ (is_integral T = true ∧ int_width (sizeof T)) →
     ¬ (is_floating_point T = true ∧ float_width (sizeof T)) →
     get_type T = Invalid)
  ∧ (get_type T ≠ Invalid → type_size (get_type T) = sizeof T).
Proof.
  split; [apply get_type_bool|].
  split.
  { intros Hb Hi Hw. destruct (get_type_integral T Hb Hi Hw) as [Hk Hs].
    repeat split; [done..|]. intros t Ht Hts. apply tag_unique; congruence. }
  split.
  { intros Hf Hw. destruct (native_floating_not_bool T HT Hf) as [Hb Hi].
    destruct (get_type_floating T Hb Hi Hf Hw) as [Hk Hs].
    repeat split; [done..|]. intros t Ht Hts. apply tag_unique; congruence. }
  split.
  { intros Hb Hni Hnf. unfold get_type. rewrite Hb.
    destruct (is_integral T) eqn:Ei.
    - widths; try done; exfalso; apply Hni; unfold int_width; auto.
    - destruct (is_floating_point T) eqn:Ef; [|done].
      widths; try done; exfalso; apply Hnf; unfold float_width; auto. }
  intros Hrec. destruct (is_bool T) eqn:Eb.
  - destruct HT as [Hbool _]. destruct (Hbool Eb) as (_ & _ & ->).
    by rewrite get_type_bool.
  - revert Hrec. unfold get_type. rewrite Eb.
    destruct (is_integral T), (is_floating_point T), (is_signed T);
      widths; simpl; congruence.
Qed.

Lemma get_type_classifies_witness :
  native c_float
  ∧ tag_kind (get_type c_float) = KFloat
  ∧ type_size (get_type c_float) = sizeof c_float.
Proof.
  assert (H : native c_float) by (split; simpl; [discriminate | reflexivity]).
  split; [exact H|].
  destruct (get_type_classifies c_float H) as (_ & _ & Hf & _).
  destruct (Hf eq_refl (or_intror (or_introl eq_refl))) as (Hk & Hs & _).
  split; [exact Hk | exact Hs].
Defined.

(** ** The registry *)

(** A key that no binding has selects nothing. *)
Lemma filter_key_absent {A} (l : list (string * A)) (k : string) :
  k ∉ l.*1 → filter (λ kv, kv.1 = k) l = [].
Proof.
  induction l as [|[k' v'] l IH]; [done|]. simpl. intros Hk.
  apply not_elem_of_cons in Hk as [Hne Hk].
  rewrite filter_cons_False by (simpl; congruence). by apply IH.
Qed.

(** In a list of bindings with distinct keys, the bindings of a key that
    occurs are that one binding. *)
Lemma filter_key_singleton {A} (l : list (string * A)) (k : string) (v : A) :
  NoDup l.*1 → (k, v) ∈ l → filter (λ kv, kv.1 = k) l = [(k, v)].
Proof.
  induction l as [|[k' v'] l IH]; intros Hnd Hin.
  - by apply elem_of_nil in Hin.
  - apply list.NoDup_cons in Hnd as [Hk' Hnd].
    apply elem_of_cons in Hin as [Heq | Hin].
    + injection Heq as <- <-. rewrite filter_cons_True by done.
      by rewrite filter_key_absent.
    + rewrite filter_cons_False; [by apply IH|].
      simpl. intros ->. apply Hk'. apply list_elem_of_fmap. by exists (k, v).
Qed.

Lemma entries_lookup (name : string) (s : Shader) (b : Buffer.t) :
  m_buffers s !! name = Some b → entries name s = [(name, b)].
Proof.
  intros H. unfold entries. apply filter_key_singleton.
  - apply NoDup_fst_map_to_list.
  - by apply elem_of_map_to_list.
Qed.

(** What a call of [set_buffer] that returns has done. *)
Lemma set_buffer_done (mem : Memory) (name : string) (dtype : VariableType)
    (n : N) (sh : list N) (p : Pointer) (s s' : Shader) :
  set_buffer mem name dtype n sh p s = Done s' →
  ∃ role slot,
    interface s !! name = Some (role, slot)
    ∧ set_buffer_pre mem dtype n sh p = true
    ∧ s' = with_buffers
             (<[name := {| Buffer.buffer := read mem p (type_size dtype * extent n sh);
                           Buffer.type := role; Buffer.dtype := dtype;
                           Buffer.index := slot; Buffer.ndim := n;
                           Buffer.shape := sh;
                           Buffer.size := type_size dtype * extent n sh;
                           Buffer.dirty := true |}]> (m_buffers s)) s.
Proof.
  unfold set_buffer. destruct (set_buffer_pre mem dtype n sh p); simpl; [|done].
  destruct (interface s !! name) as [[role slot]|]; [|done].
  intros [= <-]. by exists role, slot.
Qed.

(** [set_buffer] throws nothing but the unknown-parameter error, and leaves
    the shader as it was when it does. *)
Lemma set_buffer_raise (mem : Memory) (name : string) (dtype : VariableType)
    (n : N) (sh : list N) (p : Pointer) (s s' : Shader) (e : Error) :
  set_buffer mem name dtype n sh p s = Raise e s' → e = UnknownParameter ∧ s' = s.
Proof.
  unfold set_buffer. destruct (set_buffer_pre mem dtype n sh p); simpl; [|done].
  destruct (interface s !! name) as [[role slot]|]; [done|]. by intros [= <- <-].
Qed.

(** C2: parameter names are unique in the registry, and a second
    [set_buffer] under a name replaces the binding in place: after two calls
    with the same name that both return, the registry holds exactly one entry
    for the name; it carries the second call's dtype, ndim, shape, byte size
    and payload, keeps the role and slot the program gives the name, and the
    second call neither adds an entry nor touches another name's. *)
Theorem set_buffer_twice_replaces (mem1 mem2 : Memory) (name : string)
    (dtype1 dtype2 : VariableType) (ndim1 ndim2 : N) (shape1 shape2 : list N)
    (data1 data2 : Pointer) (s s1 s2 : Shader) :
  set_buffer mem1 name dtype1 ndim1 shape1 data1 s = Done s1 →
  set_buffer mem2 name dtype2 ndim2 shape2 data2 s1 = Done s2 →
  ∃ b1 b2,
    entries name s1 = [(name, b1)]
    ∧ entries name s2 = [(name, b2)]
    ∧ Buffer.dtype b2 = dtype2
    ∧ Buffer.ndim b2 = ndim2
    ∧ Buffer.shape b2 = shape2
    ∧ Buffer.size b2 = type_size dtype2 * extent ndim2 shape2
    ∧ Buffer.buffer b2 = read mem2 data2 (Buffer.size b2)
    ∧ Buffer.dirty b2 = true
    ∧ Buffer.type b2 = Buffer.type b1
    ∧ Buffer.index b2 = Buffer.index b1
    ∧ size (m_buffers s2) = size (m_buffers s1)
    ∧ ∀ other, other ≠ name → m_buffers s2 !! other = m_buffers s1 !! other.
Proof.
  intros H1 H2.
  apply set_buffer_done in H1 as (role1 & slot1 & Hi1 & _ & ->).
  apply set_buffer_done in H2 as (role2 & slot2 & Hi2 & _ & ->).
  simpl in Hi2. rewrite Hi1 in Hi2. injection Hi2 as <- <-.
  eexists _, _. split; [apply entries_lookup; simpl; apply lookup_insert_eq|].
  split; [apply entries_lookup; simpl; apply lookup_insert_eq|].
  simpl. repeat split; try done.
  - by rewrite insert_insert_eq, !map_size_insert.
  - intros other Hne. by rewrite !lookup_insert_ne.
Qed.

Lemma set_buffer_twice_replaces_witness :
  ∃ s2 b, set_buffer mem64 "mvp" Float32 2 [4; 4; 1] (Addr 8192)
            (match set_buffer mem64 "mvp" Float32 1 [3; 1; 1] (Addr 4096) demo with
             | Done s1 => s1 | _ => demo end) = Done s2
    ∧ entries "mvp" s2 = [("mvp"%string, b)]
    ∧ Buffer.ndim b = 2 ∧ Buffer.shape b = [4; 4; 1] ∧ Buffer.size b = 64.
Proof.
  destruct (set_buffer mem64 "mvp" Float32 1 [3; 1; 1] (Addr 4096) demo) as [s1| |] eqn:E1;
    [|vm_compute in E1; discriminate..].
  destruct (set_buffer mem64 "mvp" Float32 2 [4; 4; 1] (Addr 8192) s1) as [s2| |] eqn:E2.
  - destruct (set_buffer_twice_replaces _ _ _ _ _ _ _ _ _ _ _ _ _ _ E1 E2)
      as (b1 & b2 & _ & He & _ & Hn & Hs & Hz & _).
    exists s2, b2. repeat split; done.
  - exfalso. apply set_buffer_done in E1 as (? & ? & _ & _ & ->).
    vm_compute in E2. discriminate.
  - exfalso. apply set_buffer_done in E1 as (? & ? & _ & _ & ->).
    vm_compute in E2. discriminate.
Defined.

(** ** The uniform facade *)

(** The three ways through [set_uniform], read off its locals. *)
Lemma set_uniform_forward sb (name : string) (T : ArrayType) (value : ArrayValue)
    (s : Shader) (l : Locals) (t : VariableType) :
  set_uniform_locals T value = Some l → ndim l ≠ SIZE_MAX → vtype l = Some t →
  set_uniform sb name T value s = sb name t (ndim l) (shape l) (data l) s.
Proof.
  intros Hl Hn Ht. unfold set_uniform. rewrite Hl.
  destruct (N.eqb_spec (ndim l) SIZE_MAX); [done|]. by rewrite Ht.
Qed.

Lemma set_uniform_throw sb (name : string) (T : ArrayType) (value : ArrayValue)
    (s : Shader) (l : Locals) :
  set_uniform_locals T value = Some l → ndim l = SIZE_MAX →
  set_uniform sb name T value s = Raise invalid_dimension s.
Proof. intros Hl Hn. unfold set_uniform. by rewrite Hl, Hn. Qed.

Example set_uniform_matrix4 :
  set_uniform recorder "mvp" Matrix4f matrix4 demo
  = recorder "mvp" Float32 2 [4; 4; 1] (Addr 8192) demo.
Proof. reflexivity. Qed.

(** [value[0]] of an empty outer array is a read past the end. *)
Example set_uniform_empty_outer :
  set_uniform recorder "mvp" Matrix4f
    {| address := 0; storage := 0; contents := Arr [] |} demo = Undefined.
Proof. reflexivity. Qed.

(** C3: for a scalar argument, [set_uniform] forwards to [set_buffer] with
    [ndim = 0], [shape = {1, 1, 1}], the tag [get_type] gives the argument's
    type, and the address of the argument itself. *)
Theorem set_uniform_scalar (name : string) (T : ArrayType) (value : ArrayValue)
    (s : Shader) :
  is_scalar T = true →
  forwards name T value s (get_type (traits T)) 0 [1; 1; 1] (Addr (address value)).
Proof.
  intros H sb.
  apply (set_uniform_forward sb name T value s
           (set_vtype (get_type (traits T))
              (set_ndim 0 (set_data (Addr (address value)) locals0)))).
  - unfold set_uniform_locals. by rewrite H.
  - done.
  - done.
Qed.

Lemma set_uniform_scalar_witness :
  set_uniform recorder "alpha" float_scalar scalar1 demo
  = recorder "alpha" Float32 0 [1; 1; 1] (Addr 512) demo.
Proof. exact (set_uniform_scalar "alpha" float_scalar scalar1 demo eq_refl recorder). Defined.

(** What the fixed-size array branch forwards: [data] is passed as declared,
    without a value. *)
Lemma set_uniform_builtin (name : string) (T : ArrayType) (value : ArrayValue)
    (s : Shader) :
  is_scalar T = false → IsBuiltinArray T = true →
  forwards name T value s (get_type (Value T)) 1 [Size T; 1; 1] Indeterminate.
Proof.
  intros Hs Hb sb.
  apply (set_uniform_forward sb name T value s
           (set_vtype (get_type (Value T)) (set_shape 0 (Size T) (set_ndim 1 locals0)))).
  - unfold set_uniform_locals. by rewrite Hs, Hb.
  - done.
  - done.
Qed.

(** C4: for a fixed-size vector of three floats, [set_uniform] forwards
    [ndim = 1], [shape[0] = 3] and the tag of the element type, but the
    [data] it forwards is the unassigned local, not the pointer to the
    vector's elements: the branch never assigns [data], as the scalar and the
    nested branches do. *)
Theorem set_uniform_builtin_array_data (name : string) (s : Shader) :
  forwards name Vector3f vector3 s Float32 1 [3; 1; 1] Indeterminate
  ∧ ¬ forwards name Vector3f vector3 s Float32 1 [3; 1; 1] (Addr (storage vector3)).
Proof.
  split; [exact (set_uniform_builtin name Vector3f vector3 s eq_refl eq_refl)|].
  intros H.
  specialize (H (λ _ _ _ _ p s, match p with Indeterminate => Undefined | _ => Done s end)).
  rewrite (set_uniform_builtin name Vector3f vector3 s eq_refl eq_refl) in H.
  discriminate.
Qed.

(** The nested branch on a rectangular array: the locals once the chain on
    [Array::Depth] is through. *)
Lemma enoki_shape_rect (T : ArrayType) (v : Nested) (dims : list N) :
  Depth T = N.of_nat (length dims) → (1 ≤ length dims ≤ 3)%nat →
  rect dims v = true → Forall (λ n, 0 < n) (removelast dims) →
  enoki_shape T v locals0
  = Some {| shape := pad dims; ndim := Depth T; data := Indeterminate; vtype := None |}.
Proof.
  intros HD Hlen Hrect Hpos. unfold enoki_shape. rewrite HD.
  destruct dims as [|n0 [|n1 [|n2 [|n3 dims]]]]; simpl in Hlen; try lia.
  - destruct v as [|items]; [done|]. simpl in Hrect.
    apply andb_prop in Hrect as [Hn0 _]. apply N.eqb_eq in Hn0. simpl.
    by rewrite Hn0.
  - destruct v as [|items]; [done|]. simpl in Hrect.
    apply andb_prop in Hrect as [Hn0 Hall]. apply N.eqb_eq in Hn0.
    simpl in Hpos. apply Forall_cons_1 in Hpos as [Hpos0 _].
    destruct items as [|v0 items]; [simpl in Hn0; lia|].
    simpl in Hall. apply andb_prop in Hall as [Hv0 _].
    destruct v0 as [|items0]; [done|]. simpl in Hv0.
    apply andb_prop in Hv0 as [Hn1 _]. apply N.eqb_eq in Hn1.
    cbn -[N.of_nat]. cbn -[N.of_nat] in Hn0. by rewrite Hn0, Hn1.
  - destruct v as [|items]; [done|]. simpl in Hrect.
    apply andb_prop in Hrect as [Hn0 Hall]. apply N.eqb_eq in Hn0.
    simpl in Hpos. apply Forall_cons_1 in Hpos as [Hpos0 Hpos].
    apply Forall_cons_1 in Hpos as [Hpos1 _].
    destruct items as [|v0 items]; [simpl in Hn0; lia|].
    simpl in Hall. apply andb_prop in Hall as [Hv0 _].
    destruct v0 as [|items0]; [done|]. simpl in Hv0.
    apply andb_prop in Hv0 as [Hn1 Hall0]. apply N.eqb_eq in Hn1.
    destruct items0 as [|v00 items0]; [simpl in Hn1; lia|].
    simpl in Hall0. apply andb_prop in Hall0 as [Hv00 _].
    destruct v00 as [|items00]; [done|]. simpl in Hv00.
    apply andb_prop in Hv00 as [Hn2 _]. apply N.eqb_eq in Hn2.
    cbn -[N.of_nat]. cbn -[N.of_nat] in Hn0, Hn1. by rewrite Hn0, Hn1, Hn2.
Qed.

Lemma extent_pad (dims : list N) :
  extent (N.of_nat (length dims)) (pad dims) = product dims.
Proof. unfold extent, pad. by rewrite Nat2N.id, take_app_length. Qed.

Lemma pad_lookup (dims : list N) (i : nat) (n : N) :
  dims !! i = Some n → pad dims !! i = Some n.
Proof. intros H. unfold pad. by apply lookup_app_l_Some. Qed.

Lemma pad_length (dims : list N) : (length dims ≤ 3)%nat → length (pad dims) = 3%nat.
Proof. intros H. unfold pad. rewrite length_app, length_replicate. lia. Qed.

(** C5: for a nested array of depth [d] in 1..3 (rectangular, with extents
    [dims], every indexed level non-empty), [set_uniform] forwards to
    [set_buffer] with [ndim = d] and [shape[i]] the extent at level [i]; and
    where the program names the parameter and the element storage is
    readable, the registry then holds an entry with that [ndim], the shape
    [dims] padded with ones, and byte size [type_size(dtype)] times the
    product of the extents.  For a 4x4 float matrix: [ndim = 2],
    [shape = [4,4,1]], 16 * [type_size Float32] bytes. *)
Theorem set_uniform_nested (mem : Memory) (name : string) (T : ArrayType)
    (value : ArrayValue) (s : Shader) (dims : list N) :
  is_scalar T = false → IsBuiltinArray T = false → IsEnokiArray T = true →
  Depth T = N.of_nat (length dims) → (1 ≤ length dims ≤ 3)%nat →
  rect dims (contents value) = true →
  Forall (λ n, 0 < n) (removelast dims) →
  forwards name T value s (get_type (Scalar T)) (Depth T) (pad dims)
    (Addr (storage value))
  ∧ (∀ i n, dims !! i = Some n → pad dims !! i = Some n)
  ∧ (is_Some (interface s !! name) →
     get_type (Scalar T) ≠ Invalid →
     type_size (get_type (Scalar T)) * product dims
       ≤ N.of_nat (length (mem (storage value))) →
     ∃ s' b,
       set_uniform (set_buffer mem) name T value s = Done s'
       ∧ entries name s' = [(name, b)]
       ∧ Buffer.dtype b = get_type (Scalar T)
       ∧ Buffer.ndim b = Depth T
       ∧ Buffer.shape b = pad dims
       ∧ Buffer.size b = type_size (get_type (Scalar T)) * product dims).
Proof.
  intros Hs Hb He HD Hlen Hrect Hpos.
  assert (Hfw : forwards name T value s (get_type (Scalar T)) (Depth T) (pad dims)
                  (Addr (storage value))).
  { intros sb.
    apply (set_uniform_forward sb name T value s
             {| shape := pad dims; ndim := Depth T; data := Addr (storage value);
                vtype := Some (get_type (Scalar T)) |}); [|simpl|done].
    - unfold set_uniform_locals. rewrite Hs, Hb, He.
      by rewrite (enoki_shape_rect T _ dims).
    - rewrite HD. unfold SIZE_MAX. lia. }
  split; [exact Hfw|]. split; [apply pad_lookup|].
  intros [[role slot] Hi] Hvalid Hmem. rewrite (Hfw (set_buffer mem)).
  unfold set_buffer.
  assert (Hpre : set_buffer_pre mem (get_type (Scalar T)) (Depth T) (pad dims)
                   (Addr (storage value)) = true).
  { unfold set_buffer_pre. rewrite HD, extent_pad, pad_length by lia.
    rewrite !andb_true_iff. repeat split.
    - apply N.leb_le. lia.
    - by apply bool_decide_eq_true.
    - by apply N.leb_le. }
  rewrite Hpre, Hi. simpl. eexists _, _. split; [reflexivity|].
  split; [apply entries_lookup; simpl; apply lookup_insert_eq|].
  simpl. by rewrite HD, extent_pad.
Qed.

Lemma set_uniform_nested_witness :
  forwards "mvp" Matrix4f matrix4 demo Float32 2 [4; 4; 1] (Addr 8192)
  ∧ ∃ s' b,
      set_uniform (set_buffer mem64) "mvp" Matrix4f matrix4 demo = Done s'
      ∧ entries "mvp" s' = [("mvp"%string, b)]
      ∧ Buffer.dtype b = Float32
      ∧ Buffer.ndim b = 2
      ∧ Buffer.shape b = [4; 4; 1]
      ∧ Buffer.size b = 16 * type_size Float32.
Proof.
  destruct (set_uniform_nested mem64 "mvp" Matrix4f matrix4 demo [4; 4])
    as (Hfw & _ & Hreg).
  - reflexivity.
  - reflexivity.
  - reflexivity.
  - reflexivity.
  - simpl. lia.
  - reflexivity.
  - simpl. repeat constructor.
  - split; [exact Hfw|]. apply Hreg.
    + by eexists.
    + discriminate.
    + vm_compute. discriminate.
Defined.

(** The chain on [Array::Depth] either sets [ndim] to a depth of 1 to 3 and
    the extents below it, or leaves the locals alone. *)
Lemma enoki_shape_inv (T : ArrayType) (v : Nested) (l : Locals) :
  enoki_shape T v locals0 = Some l →
  data l = Indeterminate ∧ vtype l = None ∧ length (shape l) = 3%nat
  ∧ ((1 ≤ Depth T ≤ 3 ∧ ndim l = Depth T
      ∧ ∀ i, (N.to_nat (Depth T) ≤ i < 3)%nat → shape l !! i = Some 1)
     ∨ (¬ 1 ≤ Depth T ≤ 3 ∧ l = locals0)).
Proof.
  unfold enoki_shape.
  destruct (N.eqb_spec (Depth T) 1) as [->|H1];
    [|destruct (N.eqb_spec (Depth T) 2) as [->|H2];
      [|destruct (N.eqb_spec (Depth T) 3) as [->|H3]]];
    intros H; simplify_option_eq.
  - repeat split; try done. left. repeat split; try lia.
    intros [|[|[|i]]] Hi; simpl in *; done || lia.
  - repeat split; try done. left. repeat split; try lia.
    intros [|[|[|i]]] Hi; simpl in *; done || lia.
  - repeat split; try done. left. repeat split; lia.
  - repeat split; try done. right. split; [lia|done].
Qed.

(** The locals at the test of [ndim]: either the sentinel is still there and
    no branch took the value, or a branch did and left a dimension of at most
    3, a tag, and ones in the shape from [ndim] on. *)
Lemma set_uniform_locals_inv (T : ArrayType) (value : ArrayValue) (l : Locals) :
  set_uniform_locals T value = Some l →
  (ndim l = SIZE_MAX ∧ ¬ classifiable T)
  ∨ (ndim l ≤ 3 ∧ classifiable T ∧ is_Some (vtype l) ∧ length (shape l) = 3%nat
     ∧ ∀ i, (N.to_nat (ndim l) ≤ i < 3)%nat → shape l !! i = Some 1).
Proof.
  unfold set_uniform_locals, classifiable.
  destruct (is_scalar T) eqn:Es.
  { intros [= <-]. right. simpl. repeat split; eauto; try lia.
    intros [|[|[|i]]] Hi; simpl in *; done || lia. }
  destruct (IsBuiltinArray T) eqn:Eb.
  { intros [= <-]. right. simpl. repeat split; eauto; try lia.
    intros [|[|[|i]]] Hi; simpl in *; done || lia. }
  destruct (IsEnokiArray T) eqn:Ee.
  - destruct (enoki_shape T (contents value) locals0) as [l'|] eqn:El; [|done].
    simpl. intros [= <-].
    apply enoki_shape_inv in El as (_ & _ & Hlen & [(HD & Hn & Hsh) | (HD & ->)]).
    + right. simpl. rewrite Hn. repeat split; eauto; lia.
    + left. simpl. split; [done|]. intros [|[|[_ HD']]]; done.
  - intros [= <-]. left. split; [done|]. intros [|[|[? _]]]; done.
Qed.

(** A value no branch takes reaches the test of [ndim] with the sentinel. *)
Lemma set_uniform_locals_unclassified (T : ArrayType) (value : ArrayValue) :
  ¬ classifiable T →
  ∃ l, set_uniform_locals T value = Some l ∧ ndim l = SIZE_MAX.
Proof.
  unfold classifiable, set_uniform_locals. intros Hc.
  destruct (is_scalar T); [tauto|]. destruct (IsBuiltinArray T); [tauto|].
  destruct (IsEnokiArray T); [|by eexists].
  unfold enoki_shape.
  destruct (N.eqb_spec (Depth T) 1); [exfalso; apply Hc; right; right; split; [done|lia]|].
  destruct (N.eqb_spec (Depth T) 2); [exfalso; apply Hc; right; right; split; [done|lia]|].
  destruct (N.eqb_spec (Depth T) 3); [exfalso; apply Hc; right; right; split; [done|lia]|].
  by eexists.
Qed.

(** C6: [set_uniform] throws the invalid-dimension error exactly when the
    value is neither a scalar, nor a fixed-size array, nor a nested array of
    depth 1 to 3.  It throws whatever [set_buffer] would do, so before
    calling it, and the shader, its registry included, is as it was. *)
Theorem set_uniform_invalid_dimension (name : string) (T : ArrayType)
    (value : ArrayValue) (s : Shader) :
  (¬ classifiable T → ∀ sb, set_uniform sb name T value s = Raise invalid_dimension s)
  ∧ (∀ mem s',
       set_uniform (set_buffer mem) name T value s = Raise invalid_dimension s'
       ↔ ¬ classifiable T ∧ s' = s).
Proof.
  assert (Hthrow : ¬ classifiable T →
                   ∀ sb, set_uniform sb name T value s = Raise invalid_dimension s).
  { intros Hc sb. destruct (set_uniform_locals_unclassified T value Hc) as (l & Hl & Hn).
    by apply (set_uniform_throw sb name T value s l). }
  split; [exact Hthrow|]. intros mem s'. split.
  - unfold set_uniform.
    destruct (set_uniform_locals T value) as [l|] eqn:Hl; [|done].
    destruct (set_uniform_locals_inv T value l Hl) as [[Hn Hc] | (Hn & _)].
    + rewrite Hn. simpl. by intros [= <-].
    + destruct (N.eqb_spec (ndim l) SIZE_MAX) as [E|_];
        [rewrite E in Hn; unfold SIZE_MAX in Hn; lia|].
      destruct (vtype l) as [t|]; [|done].
      intros H. by apply set_buffer_raise in H as [? _].
  - intros [Hc ->]. by apply Hthrow.
Qed.

Lemma set_uniform_invalid_dimension_witness :
  set_uniform (set_buffer mem64) "mvp" Tensor4f tensor4 demo
  = Raise invalid_dimension demo.
Proof.
  apply (proj1 (set_uniform_invalid_dimension "mvp" Tensor4f tensor4 demo)).
  intros [H | [H | [_ H]]]; [discriminate H | discriminate H | simpl in H; lia].
Defined.

Lemma recorder_inj (name : string) (t t' : VariableType) (n n' : N)
    (sh sh' : list N) (p p' : Pointer) (s : Shader) :
  recorder name t n sh p s = recorder name t' n' sh' p' s →
  t = t' ∧ n = n' ∧ sh = sh'.
Proof.
  intros H.
  assert (E : ∀ o o', o = o' →
              match o with Done x => m_buffers x !! name | _ => None end
              = match o' with Done x => m_buffers x !! name | _ => None end)
    by (by intros ? ? ->).
  apply E in H. unfold recorder in H. simpl in H.
  rewrite !lookup_singleton_eq in H. by injection H.
Qed.

Lemma extent_ones (n : N) (sh : list N) :
  n ≤ 3 → length sh = 3%nat →
  (∀ i, (N.to_nat n ≤ i < 3)%nat → sh !! i = Some 1) →
  extent n sh = product sh.
Proof.
  intros Hn Hlen Hones.
  destruct sh as [|a [|b [|c [|d sh]]]]; simpl in Hlen; try lia.
  assert (Hc : n = 0 ∨ n = 1 ∨ n = 2 ∨ n = 3) by lia.
  unfold extent, product.
  destruct Hc as [-> | [-> | [-> | ->]]]; simpl.
  - pose proof (Hones 0%nat ltac:(lia)) as H0. pose proof (Hones 1%nat ltac:(lia)) as H1.
    pose proof (Hones 2%nat ltac:(lia)) as H2. simpl in *. simplify_eq. lia.
  - pose proof (Hones 1%nat ltac:(lia)) as H1.
    pose proof (Hones 2%nat ltac:(lia)) as H2. simpl in *. simplify_eq. lia.
  - pose proof (Hones 2%nat ltac:(lia)) as H2. simpl in *. simplify_eq. lia.
  - lia.
Qed.

(** C10: whatever [set_uniform] forwards to [set_buffer], [ndim] is one of
    0, 1, 2, 3, never the sentinel; the shape has its three entries, each
    entry from position [ndim] on is 1; so the product of [shape[0..ndim)] is
    the product of all three entries. *)
Theorem set_uniform_forwards_bounded (name : string) (T : ArrayType)
    (value : ArrayValue) (s : Shader) (dtype : VariableType) (n : N)
    (sh : list N) (p : Pointer) :
  forwards name T value s dtype n sh p →
  (n = 0 ∨ n = 1 ∨ n = 2 ∨ n = 3) ∧ n ≠ SIZE_MAX
  ∧ classifiable T
  ∧ length sh = 3%nat
  ∧ (∀ i, (N.to_nat n ≤ i < 3)%nat → sh !! i = Some 1)
  ∧ extent n sh = product sh.
Proof.
  intros H. specialize (H recorder). unfold set_uniform in H.
  destruct (set_uniform_locals T value) as [l|] eqn:Hl; [|done].
  destruct (set_uniform_locals_inv T value l Hl) as [[Hn Hc] | (Hn & Hc & Ht & Hlen & Hones)].
  { by rewrite Hn in H. }
  destruct (N.eqb_spec (ndim l) SIZE_MAX) as [E|_]; [done|].
  destruct (vtype l) as [t|]; [|done].
  apply recorder_inj in H as (_ & <- & <-).
  split; [lia|]. split; [unfold SIZE_MAX; lia|]. split; [done|].
  split; [done|]. split; [done|]. by apply extent_ones.
Qed.

Lemma set_uniform_forwards_bounded_witness :
  forwards "mvp" Matrix4f matrix4 demo Float32 2 [4; 4; 1] (Addr 8192)
  ∧ extent 2 [4; 4; 1] = product [4; 4; 1].
Proof.
  assert (H : forwards "mvp" Matrix4f matrix4 demo Float32 2 [4; 4; 1] (Addr 8192))
    by (intros sb; reflexivity).
  split; [exact H|].
  exact (proj2 (proj2 (proj2 (proj2 (proj2
    (set_uniform_forwards_bounded _ _ _ _ _ _ _ _ H)))))).
Defined.

(** ** The draw protocol *)

Lemma begin_done (s s' : Shader) :
  begin s = Done s' →
  active s = false ∧ active s' = true
  ∧ m_buffers s' = Buffer.clean <$> m_buffers s ∧ draws s' = draws s.
Proof.
  unfold begin. destruct (active s); [done|]. case_decide; [|done].
  by intros [= <-].
Qed.

Lemma begin_raise (s s' : Shader) (e : Error) :
  begin s = Raise e s' →
  s' = s ∧ (e = StateViolation ↔ active s = true).
Proof.
  unfold begin. destruct (active s).
  - by intros [= <- <-].
  - case_decide; [done|]. intros [= <- <-]. split; [done|]. by split.
Qed.

Lemma draw_array_raise (p : PrimitiveType) (offset count : N) (indexed : bool)
    (s s' : Shader) (e : Error) :
  draw_array p offset count indexed s = Raise e s' →
  s' = s ∧ (e = StateViolation ↔ active s = false).
Proof.
  unfold draw_array. destruct (active s); simpl.
  - destruct (count_ok p count); simpl; [|by intros [= <- <-]].
    destruct (indexed && negb (has_indices s)); [|done]. by intros [= <- <-].
  - by intros [= <- <-].
Qed.

Lemma draw_array_done (p : PrimitiveType) (offset count : N) (indexed : bool)
    (s s' : Shader) :
  draw_array p offset count indexed s = Done s' →
  active s = true ∧ active s' = true ∧ count_ok p count = true
  ∧ m_buffers s' = m_buffers s
  ∧ draws s' = draws s ++ [ {| draw_primitive := p; draw_offset := offset;
                               draw_count := count; draw_indexed := indexed |} ].
Proof.
  unfold draw_array. destruct (active s) eqn:Ea; simpl; [|done].
  destruct (count_ok p count); simpl; [|done].
  destruct (indexed && negb (has_indices s)); [done|]. by intros [= <-].
Qed.

Example draw_seven_vertices :
  draw_array Triangle 0 7 false demo_active = Raise TopologyMismatch demo_active
  ∧ draw_array Triangle 0 7 false demo = Raise StateViolation demo.
Proof. split; reflexivity. Qed.

(** C7: [begin], [end] and [draw_array] follow the two-state machine.  A new
    shader is [Inactive].  An operation the machine has no move for ([begin]
    while [Active]; [end] or [draw_array] while [Inactive]) is a
    state-violation error that leaves the shader, its registry included, as
    it was.  An operation that returns has made the machine's move; any error
    leaves the shader unchanged; and [begin] on an inactive shader whose
    parameters are all bound, [end] on an active one, do return. *)
Theorem draw_protocol_state_machine (op : Op) (s : Shader) :
  (∀ compile render_pass name vs fs blend_mode s0,
     Shader_new compile render_pass name vs fs blend_mode = Some s0 →
     state_of s0 = Inactive)
  ∧ (transition (state_of s) op = None → run op s = Raise StateViolation s)
  ∧ (∀ s', run op s = Done s' → transition (state_of s) op = Some (state_of s'))
  ∧ (∀ e s', run op s = Raise e s' →
       s' = s ∧ (e = StateViolation ↔ transition (state_of s) op = None))
  ∧ run op s ≠ Undefined
  ∧ (state_of s = Inactive → dom (interface s) ⊆ dom (m_buffers s) →
     ∃ s', begin s = Done s' ∧ state_of s' = Active)
  ∧ (state_of s = Active → ∃ s', end_ s = Done s' ∧ state_of s' = Inactive
                                 ∧ m_buffers s' = m_buffers s).
Proof.
  split.
  { intros compile rp name vs fs bm s0. unfold Shader_new.
    destruct (compile vs fs); simpl; [|done]. by intros [= <-]. }
  split.
  { unfold state_of, transition, run. destruct op, (active s) eqn:Ea; try done.
    - unfold begin. by rewrite Ea.
    - unfold end_. by rewrite Ea.
    - unfold draw_array. by rewrite Ea. }
  split.
  { intros s' H. destruct op; simpl in H.
    - apply begin_done in H as (Ha & Ha' & _). unfold state_of. by rewrite Ha, Ha'.
    - unfold end_ in H. unfold state_of. destruct (active s); [|done].
      by injection H as <-.
    - apply draw_array_done in H as (Ha & Ha' & _). unfold state_of.
      by rewrite Ha, Ha'. }
  split.
  { intros e s' H. destruct op; simpl in H.
    - apply begin_raise in H as [-> He]. split; [done|]. rewrite He.
      unfold state_of. by destruct (active s).
    - unfold end_ in H. unfold state_of. destruct (active s); [done|].
      by injection H as <- <-.
    - apply draw_array_raise in H as [-> He]. split; [done|]. rewrite He.
      unfold state_of. by destruct (active s). }
  split.
  { destruct op; simpl.
    - unfold begin. destruct (active s); [done|]. by case_decide.
    - unfold end_. by destruct (active s).
    - unfold draw_array. destruct (active s); simpl; [|done].
      destruct (count_ok primitive_type count); simpl; [|done].
      by destruct (indexed && negb (has_indices s)). }
  split.
  - unfold state_of, begin. destruct (active s); [done|]. intros _ Hdom.
    rewrite decide_True by done. by eexists.
  - unfold state_of, end_. destruct (active s); [|done]. intros _. by eexists.
Qed.

Lemma draw_protocol_state_machine_witness :
  end_ demo = Raise StateViolation demo
  ∧ begin demo_active = Raise StateViolation demo_active
  ∧ state_of demo_indexed = Inactive ∧ state_of demo_active = Active.
Proof.
  split; [exact (proj1 (proj2 (draw_protocol_state_machine OpEnd demo)) eq_refl)|].
  split; [exact (proj1 (proj2 (draw_protocol_state_machine OpBegin demo_active)) eq_refl)|].
  split; reflexivity.
Defined.

(** C8: a [Line] draw whose count is not a multiple of 2, and a [Triangle]
    draw whose count is not a multiple of 3, is an error reported to the
    caller and issues no draw: the shader, its list of draws included, is as
    it was.  [draw_array(Triangle, 0, 7, false)] fails and, on an active
    shader, [draw_array(Triangle, 0, 9, false)] returns with one draw issued;
    [Point], [LineStrip] and [TriangleStrip] accept every count. *)
Theorem draw_array_count_multiple (offset count : N) (indexed : bool) (s : Shader) :
  (∀ p, (p = Line ∧ count mod 2 ≠ 0) ∨ (p = Triangle ∧ count mod 3 ≠ 0) →
        ∃ e, draw_array p offset count indexed s = Raise e s
             ∧ (active s = true → e = TopologyMismatch))
  ∧ (∃ e, draw_array Triangle 0 7 false s = Raise e s)
  ∧ (active s = true →
     draw_array Triangle 0 9 false s
     = Done (with_draws (draws s ++ [ {| draw_primitive := Triangle; draw_offset := 0;
                                         draw_count := 9; draw_indexed := false |} ]) s))
  ∧ (∀ p, p = Point ∨ p = LineStrip ∨ p = TriangleStrip →
          count_ok p count = true
          ∧ (active s = true → indexed = false ∨ has_indices s = true →
             draw_array p offset count indexed s
             = Done (with_draws (draws s ++ [ {| draw_primitive := p;
                                                 draw_offset := offset;
                                                 draw_count := count;
                                                 draw_indexed := indexed |} ]) s))).
Proof.
  split.
  { intros p Hp. unfold draw_array. destruct (active s); simpl; [|by eexists].
    assert (Hc : count_ok p count = false).
    { destruct Hp as [[-> H] | [-> H]]; simpl; by apply N.eqb_neq. }
    rewrite Hc. simpl. by eexists. }
  split.
  { unfold draw_array. destruct (active s); simpl; by eexists. }
  split.
  { intros Ha. unfold draw_array. by rewrite Ha. }
  intros p Hp.
  assert (Hc : count_ok p count = true) by (by destruct Hp as [-> | [-> | ->]]).
  split; [done|]. intros Ha Hi. unfold draw_array. rewrite Ha, Hc. simpl.
  by destruct Hi as [-> | ->]; [|rewrite andb_false_r].
Qed.

Lemma draw_array_count_multiple_witness :
  (∃ e, draw_array Triangle 0 7 false demo_active = Raise e demo_active
        ∧ (active demo_active = true → e = TopologyMismatch))
  ∧ draws (after (draw_array Triangle 0 9 false demo_active))
    = [ {| draw_primitive := Triangle; draw_offset := 0; draw_count := 9;
           draw_indexed := false |} ].
Proof.
  destruct (draw_array_count_multiple 0 7 false demo_active) as (H7 & _).
  destruct (draw_array_count_multiple 0 9 false demo_active) as (_ & _ & H9 & _).
  split.
  - apply H7. right. split; [reflexivity|]. vm_compute. discriminate.
  - rewrite (H9 eq_refl). reflexivity.
Defined.

Lemma has_indices_lookup (s : Shader) :
  has_indices s = true
  ↔ ∃ b, m_buffers s !! "indices"%string = Some b ∧ Buffer.dtype b = UInt32.
Proof.
  unfold has_indices. destruct (m_buffers s !! "indices"%string) as [b|].
  - rewrite bool_decide_eq_true. split; [by exists b|]. by intros (? & [= <-] & ?).
  - split; [done|]. by intros (? & ? & _).
Qed.

(** C9: an indexed draw needs a buffer of unsigned 32-bit integers bound
    under the name [indices].  On an active shader, with a count that fits
    the topology: without such a buffer the call fails with the
    missing-binding error and issues no draw; with it the call returns and
    issues the draw; and once [set_buffer] has bound a [UInt32] buffer named
    [indices] and [begin] has returned, it is there. *)
Theorem draw_array_indexed (p : PrimitiveType) (offset count : N) (s : Shader) :
  active s = true → count_ok p count = true →
  (has_indices s = true
   ↔ ∃ b, m_buffers s !! "indices"%string = Some b ∧ Buffer.dtype b = UInt32)
  ∧ (has_indices s = false → draw_array p offset count true s = Raise MissingBinding s)
  ∧ (has_indices s = true →
     draw_array p offset count true s
     = Done (with_draws (draws s ++ [ {| draw_primitive := p; draw_offset := offset;
                                         draw_count := count; draw_indexed := true |} ]) s))
  ∧ (∀ mem n sh data s0 s1,
       set_buffer mem "indices" UInt32 n sh data s0 = Done s1 → begin s1 = Done s →
       has_indices s = true).
Proof.
  intros Ha Hc. split; [apply has_indices_lookup|].
  split; [|split].
  - intros Hi. unfold draw_array. by rewrite Ha, Hc, Hi.
  - intros Hi. unfold draw_array. by rewrite Ha, Hc, Hi.
  - intros mem n sh data s0 s1 H1 H2.
    apply set_buffer_done in H1 as (role & slot & _ & _ & ->).
    apply begin_done in H2 as (_ & _ & Hm & _). simpl in Hm.
    apply has_indices_lookup. rewrite Hm, lookup_fmap, lookup_insert_eq. simpl.
    by eexists.
Qed.

Lemma draw_array_indexed_witness :
  draw_array Triangle 0 6 true (with_active true demo_vertices)
  = Raise MissingBinding (with_active true demo_vertices)
  ∧ draws (after (draw_array Triangle 0 6 true demo_active))
    = [ {| draw_primitive := Triangle; draw_offset := 0; draw_count := 6;
           draw_indexed := true |} ].
Proof.
  split.
  - exact (proj1 (proj2 (draw_array_indexed Triangle 0 6 (with_active true demo_vertices)
                           eq_refl eq_refl)) eq_refl).
  - destruct (draw_array_indexed Triangle 0 6 demo_active eq_refl eq_refl)
      as (_ & _ & Hdone & Hbound).
    rewrite Hdone; [reflexivity|].
    apply (Hbound mem64 1 [6; 1; 1] (Addr 0) demo_vertices demo_indexed); reflexivity.
Defined.

(** ** More on [get_type] *)

(** What a tag tells about the type it was given to. *)
Lemma get_type_inv (T : TypeTraits) :
  match tag_kind (get_type T) with
  | KBool => is_bool T = true
  | KInteger sg =>
      is_bool T = false ∧ is_integral T = true ∧ is_signed T = sg
      ∧ int_width (sizeof T) ∧ type_size (get_type T) = sizeof T
  | KFloat =>
      is_bool T = false ∧ is_integral T = false ∧ is_floating_point T = true
      ∧ float_width (sizeof T) ∧ type_size (get_type T) = sizeof T
  | KInvalid =>
      is_bool T = false
      ∧ (is_integral T = true → ¬ int_width (sizeof T))
      ∧ (is_integral T = false →
         ¬ (is_floating_point T = true ∧ float_width (sizeof T)))
  end.
Proof.
  unfold get_type, int_width, float_width.
  destruct (is_bool T); [done|].
  destruct (is_integral T), (is_floating_point T), (is_signed T); widths; simpl;
    repeat split; try done; try lia;
    try (intros _; lia); intros _ [Hf Hw]; done || lia.
Qed.

(** X1: [get_type] returns [Bool] for [bool] and for no other type. *)
Theorem get_type_bool_iff (T : TypeTraits) :
  get_type T = Bool ↔ is_bool T = true.
Proof.
  split; [|apply get_type_bool].
  intros H. pose proof (get_type_inv T) as Hi. by rewrite H in Hi.
Qed.

(** X2: [get_type] returns an integer tag of signedness [sg] exactly for the
    integral types other than [bool] that have that signedness and a width of
    1, 2, 4 or 8 bytes; whether the type also counts as floating is never
    asked. *)
Theorem get_type_integer_iff (T : TypeTraits) (sg : bool) :
  tag_kind (get_type T) = KInteger sg
  ↔ is_bool T = false ∧ is_integral T = true ∧ is_signed T = sg
    ∧ int_width (sizeof T).
Proof.
  split.
  - intros H. pose proof (get_type_inv T) as Hi. rewrite H in Hi. tauto.
  - intros (Hb & Hi & <- & Hw). by apply get_type_integral.
Qed.

(** X3: [get_type] returns a float tag exactly for the floating types that
    are not integral and have a width of 2, 4 or 8 bytes. *)
Theorem get_type_float_iff (T : TypeTraits) :
  tag_kind (get_type T) = KFloat
  ↔ is_bool T = false ∧ is_integral T = false ∧ is_floating_point T = true
    ∧ float_width (sizeof T).
Proof.
  split.
  - intros H. pose proof (get_type_inv T) as Hi. rewrite H in Hi. tauto.
  - intros (Hb & Hi & Hf & Hw). by apply get_type_floating.
Qed.

(** X4: [get_type] returns [Invalid] exactly when the type is not [bool] and
    is either integral of a width other than 1, 2, 4, 8, or not integral and
    not a floating type of width 2, 4 or 8.  An integral type of another
    width is [Invalid] even if it also counts as floating. *)
Theorem get_type_invalid_iff (T : TypeTraits) :
  get_type T = Invalid
  ↔ is_bool T = false
    ∧ (is_integral T = true → ¬ int_width (sizeof T))
    ∧ (is_integral T = false → ¬ (is_floating_point T = true ∧ float_width (sizeof T))).
Proof.
  split.
  - intros H. pose proof (get_type_inv T) as Hi. by rewrite H in Hi.
  - intros (Hb & Hi & Hf). pose proof (get_type_inv T) as Hinv.
    destruct (get_type T); simpl in Hinv; try done.
    all: try (destruct Hinv as (_ & Hint & _ & Hw & _); by destruct (Hi Hint)).
    all: try (destruct Hinv as (_ & Hint & Hfl & Hw & _); by destruct (Hf Hint)).
    congruence.
Qed.

(** X5: a tag other than [Invalid] and [Bool] determines the layout: two
    types with the same such tag have the same width, are both integral or
    both not, and, when integral, have the same signedness. *)
Theorem get_type_same_tag (T U : TypeTraits) :
  get_type T = get_type U → get_type T ≠ Invalid → get_type T ≠ Bool →
  sizeof T = sizeof U ∧ is_integral T = is_integral U
  ∧ (is_integral T = true → is_signed T = is_signed U).
Proof.
  intros Heq Hinv Hbool.
  pose proof (get_type_inv T) as HT. pose proof (get_type_inv U) as HU.
  rewrite <- Heq in HU.
  destruct (tag_kind (get_type T)) as [|sg| |] eqn:Hk.
  - by destruct (get_type T).
  - destruct HT as (_ & Hi & Hs & _ & Hsz). destruct HU as (_ & Hi' & Hs' & _ & Hsz').
    repeat split; congruence.
  - destruct HT as (_ & Hi & _ & _ & Hsz). destruct HU as (_ & Hi' & _ & _ & Hsz').
    repeat split; congruence.
  - by destruct (get_type T).
Qed.

Lemma get_type_same_tag_witness :
  sizeof c_uint32 = sizeof c_uint32 ∧ is_integral c_uint32 = is_integral c_uint32
  ∧ (is_integral c_uint32 = true → is_signed c_uint32 = is_signed c_uint32).
Proof.
  apply (get_type_same_tag c_uint32 c_uint32 eq_refl); discriminate.
Defined.

(** ** More on [set_uniform] *)

(** X6: [set_uniform] reaches the shader only through [set_buffer]: whatever
    holds of the undefined outcome, of the dimension error on the unchanged
    shader, and of every call of [set_buffer] under the same name on the same
    shader with a dimension of at most 3 and a shape of three entries, holds
    of [set_uniform]. *)
Theorem set_uniform_calls_set_buffer_once sb (name : string) (T : ArrayType)
    (value : ArrayValue) (s : Shader) (P : Outcome → Prop) :
  P Undefined → P (Raise invalid_dimension s) →
  (∀ dtype n sh p, n ≤ 3 → length sh = 3%nat → P (sb name dtype n sh p s)) →
  P (set_uniform sb name T value s).
Proof.
  intros Hu Hr Hc. unfold set_uniform.
  destruct (set_uniform_locals T value) as [l|] eqn:Hl; [|done].
  destruct (set_uniform_locals_inv T value l Hl) as [[Hn _] | (Hn & _ & _ & Hlen & _)].
  - by rewrite Hn.
  - destruct (ndim l =? SIZE_MAX); [done|]. destruct (vtype l); [|done].
    by apply Hc.
Qed.

Lemma set_uniform_calls_set_buffer_once_witness :
  match set_uniform refuse "mvp" Matrix4f matrix4 demo with
  | Done _ => False
  | Raise _ s => s = demo
  | Undefined => True
  end.
Proof.
  apply (set_uniform_calls_set_buffer_once refuse "mvp" Matrix4f matrix4 demo
           (λ o, match o with Done _ => False | Raise _ s => s = demo
                         | Undefined => True end)).
  - exact I.
  - reflexivity.
  - intros dtype n sh p _ _. reflexivity.
Defined.

(** X7: for a fixed-size array type that is not scalar, [set_uniform] never
    reads the value: the length comes from [Array::Size] and the tag from
    [Array::Value], the pointer is the unassigned local, and any two values
    give the same call.  This also holds when the type passes the
    nested-array test, whose branch is then not taken. *)
Theorem set_uniform_builtin_ignores_value (name : string) (T : ArrayType)
    (value value' : ArrayValue) (s : Shader) :
  is_scalar T = false → IsBuiltinArray T = true →
  forwards name T value s (get_type (Value T)) 1 [Size T; 1; 1] Indeterminate
  ∧ ∀ sb, set_uniform sb name T value s = set_uniform sb name T value' s.
Proof.
  intros Hs Hb. split; [by apply set_uniform_builtin|].
  intros sb. by rewrite !(set_uniform_builtin name T _ s Hs Hb sb).
Qed.

Lemma set_uniform_builtin_ignores_value_witness :
  set_uniform recorder "color" Vector3f_nested vector3 demo
  = set_uniform recorder "color" Vector3f_nested empty2 demo.
Proof.
  exact (proj2 (set_uniform_builtin_ignores_value "color" Vector3f_nested vector3
                  empty2 demo eq_refl eq_refl) recorder).
Defined.

(** The nested branch, once the locals of the chain on [Array::Depth] are
    known. *)
Lemma set_uniform_enoki sb (name : string) (T : ArrayType) (value : ArrayValue)
    (s : Shader) (l : Locals) :
  is_scalar T = false → IsBuiltinArray T = false → IsEnokiArray T = true →
  enoki_shape T (contents value) locals0 = Some l → ndim l ≠ SIZE_MAX →
  set_uniform sb name T value s
  = sb name (get_type (Scalar T)) (ndim l) (shape l) (Addr (storage value)) s.
Proof.
  intros Hs Hb He Hl Hn.
  apply (set_uniform_forward sb name T value s
           (set_vtype (get_type (Scalar T)) (set_data (Addr (storage value)) l)));
    [|done..].
  unfold set_uniform_locals. by rewrite Hs, Hb, He, Hl.
Qed.

(** X8: the nested branch looks at first elements only.  At depth 2 the
    shape is the number of rows and the length of the first row, whatever the
    other rows are; at depth 3 it is the number of slices, the number of rows
    of the first slice and the length of its first row.  An array whose rows
    differ in length is forwarded, not rejected. *)
Theorem set_uniform_first_elements (name : string) (T : ArrayType) (s : Shader)
    (a st : N) :
  is_scalar T = false → IsBuiltinArray T = false → IsEnokiArray T = true →
  (Depth T = 2 → ∀ row0 rest,
     forwards name T
       {| address := a; storage := st; contents := Arr (Arr row0 :: rest) |} s
       (get_type (Scalar T)) 2
       [N.of_nat (S (length rest)); N.of_nat (length row0); 1] (Addr st))
  ∧ (Depth T = 3 → ∀ row00 rest0 rest,
     forwards name T
       {| address := a; storage := st;
          contents := Arr (Arr (Arr row00 :: rest0) :: rest) |} s
       (get_type (Scalar T)) 3
       [N.of_nat (S (length rest)); N.of_nat (S (length rest0));
        N.of_nat (length row00)] (Addr st)).
Proof.
  intros Hs Hb He. split.
  - intros HD row0 rest sb.
    by rewrite (set_uniform_enoki sb name T _ s
                  (set_ndim 2 (set_shape 1 (N.of_nat (length row0))
                     (set_shape 0 (N.of_nat (S (length rest))) locals0))) Hs Hb He)
      by (done || (unfold enoki_shape; by rewrite HD)).
  - intros HD row00 rest0 rest sb.
    by rewrite (set_uniform_enoki sb name T _ s
                  (set_ndim 3 (set_shape 2 (N.of_nat (length row00))
                     (set_shape 1 (N.of_nat (S (length rest0)))
                        (set_shape 0 (N.of_nat (S (length rest))) locals0)))) Hs Hb He)
      by (done || (unfold enoki_shape; by rewrite HD)).
Qed.

Lemma set_uniform_first_elements_witness :
  set_uniform recorder "mvp" Matrix4f ragged2 demo
  = recorder "mvp" Float32 2 [2; 3; 1] (Addr 2048) demo.
Proof.
  exact (proj1 (set_uniform_first_elements "mvp" Matrix4f demo 2048 2048
                  eq_refl eq_refl eq_refl) eq_refl [Elem; Elem; Elem] [Arr [Elem]]
           recorder).
Defined.



(** X10: [set_uniform] does not look at the tag it computes.  A scalar whose
    type is neither [bool], nor integral, nor floating (an enumeration, a
    pointer) is forwarded with the tag [Invalid], as is an integral scalar of
    a width other than 1, 2, 4, 8; no exception is raised. *)
Theorem set_uniform_scalar_without_tag (name : string) (T : ArrayType)
    (value : ArrayValue) (s : Shader) :
  is_scalar T = true → is_bool (traits T) = false →
  (is_integral (traits T) = true ∧ ¬ int_width (sizeof (traits T)))
  ∨ (is_integral (traits T) = false ∧ is_floating_point (traits T) = false) →
  forwards name T value s Invalid 0 [1; 1; 1] (Addr (address value)).
Proof.
  intros Hs Hb Hc sb.
  assert (Ht : get_type (traits T) = Invalid).
  { pose proof (get_type_inv (traits T)) as Hi.
    destruct (tag_kind (get_type (traits T))) as [|sg| |] eqn:Hk.
    - by destruct (get_type (traits T)).
    - destruct Hi as (_ & Hi & _ & Hw & _). destruct Hc as [[_ Hn] | [Hn _]]; [done|congruence].
    - destruct Hi as (_ & Hi & Hf & _). destruct Hc as [[Hn _] | [_ Hn]]; congruence.
    - congruence. }
  rewrite <- Ht.
  apply (set_uniform_forward sb name T value s
           (set_vtype (get_type (traits T))
              (set_ndim 0 (set_data (Addr (address value)) locals0)))); [|done..].
  unfold set_uniform_locals. by rewrite Hs.
Qed.

Lemma set_uniform_scalar_without_tag_witness :
  set_uniform recorder "mode" enum_scalar scalar1 demo
  = recorder "mode" Invalid 0 [1; 1; 1] (Addr 512) demo.
Proof.
  exact (set_uniform_scalar_without_tag "mode" enum_scalar scalar1 demo eq_refl eq_refl
           (or_intror (conj eq_refl eq_refl)) recorder).
Defined.




